(** * express-mongodb-auth: the registration endpoint and its password hashing

    A shallow embedding of [index.js] (the [POST /register] handler) and of
    [models/users.js] and the [hashPassword] / [verifyPassword] pair as the
    README lists them, with the properties the specification states about
    them.

    The handler is asynchronous JavaScript that talks to three collaborators:
    the Mongoose model [User] (a MongoDB collection), [bcryptjs] and the
    Express response object.  It is embedded in a state-and-exception monad
    over a [world] that holds the collection, the journal of model
    operations, the console, the response and the two sources of
    non-determinism (store outages and random salts). *)

From Stdlib Require Import Floats.SpecFloat.
From stdpp Require Import gmap strings list fin_maps.

Local Open Scope string_scope.
Local Open Scope list_scope.

(** ** JavaScript values of a parsed JSON body *)

(** What [express.json()] can put into [req.body], plus [undefined], which
    destructuring yields for an absent property.  Numbers are IEEE 754
    doubles. *)
#[warnings="-register-all"]
Inductive jsval : Type :=
  | JUndefined
  | JNull
  | JBool (b : bool)
  | JNum (x : spec_float)
  | JStr (s : string)
  | JArr (items : list jsval)
  | JObj (props : list (string * jsval)).

(** ECMAScript ToBoolean, which [!v] and [if (v)] apply. *)
Definition toBoolean (v : jsval) : bool :=
  match v with
  | JUndefined | JNull => false
  | JBool b => b
  | JNum (S754_zero _) | JNum S754_nan => false
  | JNum _ => true
  | JStr s => negb (String.eqb s "")
  | JArr _ | JObj _ => true
  end.

(** [const { k } = body]: the property, or [undefined] when it is absent. *)
Definition prop (k : string) (body : gmap string jsval) : jsval :=
  default JUndefined (body !! k).

(** A request as the callback sees it: [req.body] is the object that
    [express.json()] parsed, a finite map from property names to values. *)
Record request := { body : gmap string jsval }.

(** ** Documents, errors, responses *)

(** A stored document of [userSchema]: three [String] paths and the
    identity Mongoose gives every document. *)
Record user := mkUser {
  _id : N;
  name : string;
  email : string;
  password : string
}.

Inductive js_error : Type :=
  | MongoNetworkError (cause : string)   (* the store could not be reached *)
  | DuplicateKey (key : string)          (* E11000 on the unique email index *)
  | CastError (value : jsval).           (* a value no String path accepts *)

(** What [new User(...)] holds: a well-typed document, or the cast error
    that [save] will raise when it validates. *)
Inductive Document : Type :=
  | Doc (u : user)
  | Invalid (e : js_error).

(** The JSON bodies the handler sends. *)
Inductive payload : Type :=
  | Message (message : string)
  | Registered (message : string) (savedUser : user).

Record response := { status : nat; json : payload }.

(** Operations issued on the model, in the order they were issued. *)
Inductive model_op : Type :=
  | FindOne (filter_email : jsval)
  | Save (d : Document).

Inductive console_line : Type :=
  | LogUser (u : user)        (* console.log(savedUser) *)
  | LogError (e : js_error).  (* console.error(err) *)

(** ** The world *)

Record world := mkWorld {
  users : list user;               (* the collection, in insertion order *)
  next_id : N;                     (* source of fresh identities *)
  journal : list model_op;         (* model operations issued so far *)
  console : list console_line;     (* lines written to the console *)
  res : option response;           (* what the response object has sent *)
  drawn : nat;                     (* salts drawn so far *)
  entropy : nat -> string;         (* the i-th random salt, 22 radix-64 characters *)
  outage : nat -> option string    (* the cause, when the i-th model operation cannot reach the store *)
}.

Definition set_users (f : list user -> list user) (w : world) : world :=
  mkWorld (f (users w)) (next_id w) (journal w) (console w) (res w)
          (drawn w) (entropy w) (outage w).
Definition set_next_id (n : N) (w : world) : world :=
  mkWorld (users w) n (journal w) (console w) (res w)
          (drawn w) (entropy w) (outage w).
Definition set_journal (f : list model_op -> list model_op) (w : world) : world :=
  mkWorld (users w) (next_id w) (f (journal w)) (console w) (res w)
          (drawn w) (entropy w) (outage w).
Definition set_console (f : list console_line -> list console_line) (w : world) : world :=
  mkWorld (users w) (next_id w) (journal w) (f (console w)) (res w)
          (drawn w) (entropy w) (outage w).
Definition set_res (r : option response) (w : world) : world :=
  mkWorld (users w) (next_id w) (journal w) (console w) r
          (drawn w) (entropy w) (outage w).
Definition set_drawn (n : nat) (w : world) : world :=
  mkWorld (users w) (next_id w) (journal w) (console w) (res w)
          n (entropy w) (outage w).

(** ** Promises as a state-and-exception monad *)

Inductive outcome (A : Type) : Type :=
  | Resolved (a : A)
  | Rejected (e : js_error).
Arguments Resolved {A} a.
Arguments Rejected {A} e.

Definition M (A : Type) : Type := world -> outcome A * world.

Definition ret {A} (a : A) : M A := fun w => (Resolved a, w).
Definition throw {A} (e : js_error) : M A := fun w => (Rejected e, w).
Definition bind {A B} (m : M A) (k : A -> M B) : M B :=
  fun w => match m w with
           | (Resolved a, w') => k a w'
           | (Rejected e, w') => (Rejected e, w')
           end.
(** [try { m } catch (err) { h err }]; effects made before the throw stay. *)
Definition try_catch {A} (m : M A) (h : js_error -> M A) : M A :=
  fun w => match m w with
           | (Resolved a, w') => (Resolved a, w')
           | (Rejected e, w') => h e w'
           end.
Definition modify (f : world -> world) : M unit := fun w => (Resolved tt, f w).

Declare Scope js_scope.
Delimit Scope js_scope with js.
Notation "x <- m ;; k" := (bind m (fun x => k))
  (at level 100, m at next level, k at level 200, right associativity) : js_scope.
Notation "m ;; k" := (bind m (fun _ => k))
  (at level 100, k at level 200, right associativity) : js_scope.
Local Open Scope js_scope.

(** ** What the libraries compute *)

(** The parts of the collaborators that this repository neither contains nor
    constrains.  Every theorem below holds for all of them.
    - [crypt]: bcrypt's key derivation, from the password and the salt
      string to the text of the checksum.
    - [castString]: Mongoose's cast of a value that is not a string to a
      [String] path ([None]: the cast fails).
    - [select]: what [findOne] settles to when the [email] of its filter is
      not a string (casts, query operators). *)
Class Platform := {
  crypt : string -> string -> string;
  castString : jsval -> option string;
  select : jsval -> list user -> outcome (option user)
}.

Section Service.
Context `{Platform}.

(** *** bcryptjs *)

(** Two decimal digits of the cost factor. *)
Definition digit (n : nat) : string :=
  String (Ascii.ascii_of_nat (48 + n `mod` 10)) "".
Definition cost_text (rounds : nat) : string :=
  digit (rounds `div` 10) +:+ digit rounds.

(** Length of a salt string: ["$2a$"], two digits of cost, ["$"] and 22
    characters of salt. *)
Definition SALT_LENGTH : nat := 29.

(** Modelled from the spec: [bcrypt.genSalt] of the bcryptjs package, which
    is not part of the repository.  The spec (4.1) has a randomized salt and
    a configurable cost; the salt string carries both, in bcrypt's layout.
    The random characters are the next ones of [entropy]. *)
Definition genSalt (rounds : nat) : M string :=
  fun w => (Resolved ("$2a$" +:+ cost_text rounds +:+ "$" +:+ entropy w (drawn w)),
            set_drawn (S (drawn w)) w).

(** Modelled from the spec: [bcrypt.hash] of the bcryptjs package.  The spec
    (4.1) has the salt embedded in the digest's encoding: the digest is the
    salt string followed by the checksum. *)
Definition bcrypt_hash (s salt : string) : M string :=
  ret (salt +:+ crypt s salt).

(** Modelled from the spec: [bcrypt.compare] of the bcryptjs package.  The
    spec (4.1): true iff the plain text, hashed with the salt embedded in
    the digest, equals the digest. *)
Definition bcrypt_compare (s hash : string) : M bool :=
  comp <- bcrypt_hash s (String.substring 0 SALT_LENGTH hash) ;;
  ret (String.eqb comp hash).

(** README, "Example". *)
Definition hashPassword (password : string) : M string :=
  salt <- genSalt 10 ;;
  bcrypt_hash password salt.

Definition verifyPassword (inputPassword storedHash : string) : M bool :=
  bcrypt_compare inputPassword storedHash.

(** *** models/users.js *)

(** A path of type [String] ([userSchema]) takes a string as it is; what
    Mongoose makes of any other value is [castString]'s to say. *)
Definition cast (v : jsval) : outcome string :=
  match v with
  | JStr s => Resolved s
  | _ => match castString v with
         | Some s => Resolved s
         | None => Rejected (CastError v)
         end
  end.

(** The document with identity [id] that the schema makes of three values:
    each path is cast, and the first cast that fails is kept for [save]. *)
Definition construct (id : N) (name email password : jsval) : Document :=
  match cast name, cast email, cast password with
  | Resolved n, Resolved e, Resolved p => Doc (mkUser id n e p)
  | Rejected err, _, _ => Invalid err
  | _, Rejected err, _ => Invalid err
  | _, _, Rejected err => Invalid err
  end.

(** Modelled from the spec: [new User({ name, email, password })] of
    Mongoose, which is not part of the repository.  The document takes the
    three values through the schema; the spec (3) has its identity assigned
    by the persistence layer at creation time, and no identity is used
    twice. *)
Definition new_User (name email password : jsval) : M Document :=
  fun w => (Resolved (construct (next_id w) name email password),
            set_next_id (N.succ (next_id w)) w).

(** [userSchema.pre("save", ...)]. *)
Definition pre_save (this : user) : M user :=
  salt <- genSalt 10 ;;
  let plainTextPassword := password this in
  encryptedPassword <- bcrypt_hash plainTextPassword salt ;;
  ret (mkUser (_id this) (name this) (email this) encryptedPassword).

(** Modelled from the spec: the insert that [save] sends to the store, which
    is Mongoose's and MongoDB's and not part of the repository.  The spec (6)
    has it fail on connectivity loss ([k] is the position of the operation
    in the journal) and on a constraint violation: the unique index on
    [email] that the schema asks for ([unique: true]) already holds the
    key. *)
Definition insertOne (k : nat) (u : user) : M user :=
  fun w =>
    match outage w k with
    | Some cause => (Rejected (MongoNetworkError cause), w)
    | None =>
        if existsb (fun v => String.eqb (email v) (email u)) (users w)
        then (Rejected (DuplicateKey (email u)), w)
        else (Resolved u, set_users (fun l => l ++ [u]) w)
    end.

(** Modelled from the spec: [newUser.save()] of Mongoose.  The document is
    validated (a cast that failed is raised here), the pre-save hook of the
    schema runs, and the insert is sent: the spec (4.2, steps 4 to 6) has
    the password hashed before the record is written. *)
Definition save (d : Document) : M user :=
  fun w =>
    let k := length (journal w) in
    (match d with
     | Invalid e => throw e
     | Doc u => this <- pre_save u ;; insertOne k this
     end) (set_journal (fun j => j ++ [Save d]) w).

(** Modelled from the spec: [User.findOne({ email })], the read of the
    store, which is Mongoose's and MongoDB's.  The spec (6) has
    [findOneByEmail(email) -> record|null], a read that can fail for
    infrastructural reasons; emails are compared as exact strings (3): the
    result is the first document whose email is the given string, or
    [null]. *)
Definition findOne (email' : jsval) : M (option user) :=
  fun w =>
    let w1 := set_journal (fun j => j ++ [FindOne email']) w in
    match outage w (length (journal w)) with
    | Some cause => (Rejected (MongoNetworkError cause), w1)
    | None =>
        match email' with
        | JStr s => (Resolved (List.find (fun u => String.eqb (email u) s) (users w)), w1)
        | v => (select v (users w), w1)
        end
    end.

(** *** index.js *)

(** [res.status(code).json(body)]. *)
Definition res_status_json (code : nat) (b : payload) : M unit :=
  modify (set_res (Some {| status := code; json := b |})).

Definition console_log (u : user) : M unit :=
  modify (set_console (fun c => c ++ [LogUser u])).
Definition console_error (e : js_error) : M unit :=
  modify (set_console (fun c => c ++ [LogError e])).

(** The callback of [app.post("/register", ...)].  A [Rejected] outcome is
    the rejection of the promise the async callback returns: nothing
    catches it, and no response has been sent. *)
Definition register (req : request) : M unit :=
  let name := prop "name" (body req) in
  let email := prop "email" (body req) in
  let password := prop "password" (body req) in
  if negb (toBoolean name) || negb (toBoolean email) || negb (toBoolean password)
  then res_status_json 400 (Message "All fields are required.")
  else
    existingUser <- findOne email ;;
    match existingUser with
    | Some _ => res_status_json 400 (Message "Email is already registered.")
    | None =>
        newUser <- new_User name email password ;;
        try_catch
          (savedUser <- save newUser ;;
           console_log savedUser ;;
           res_status_json 201 (Registered "User registered successfully!" savedUser))
          (fun err =>
             console_error err ;;
             res_status_json 500 (Message "Server error"))
    end.

(** A request as Express hands it to the callback: with a response object
    that has sent nothing yet. *)
Definition post_register (req : request) (w : world) : outcome unit * world :=
  register req (set_res None w).

End Service.

(** ** Derived notions used by the statements *)

(** The guard of the handler, read positively: all three fields are truthy. *)
Definition all_present (req : request) : bool :=
  toBoolean (prop "name" (body req))
  && toBoolean (prop "email" (body req))
  && toBoolean (prop "password" (body req)).

(** A field the way the spec speaks of a missing one: absent from the body,
    or the empty string. *)
Definition absent_or_empty (k : string) (req : request) : Prop :=
  body req !! k = None \/ body req !! k = Some (JStr "").

(** The falsy values a JSON body can carry for a field, and [undefined] for
    a field it does not carry. *)
Definition falsy_values : list jsval :=
  [JUndefined; JNull; JStr ""; JNum (S754_zero false); JBool false].

(** The emails held by the collection. *)
Definition emails (w : world) : list string := email <$> users w.

(** Number of documents of the collection with a given email. *)
Definition count_email (e : string) (w : world) : nat :=
  length (List.filter (fun u => String.eqb (email u) e) (users w)).

(** The uniqueness invariant, pairwise: two distinct documents of the
    collection never carry the same email. *)
Definition emails_unique (w : world) : Prop :=
  forall (i j : nat) (u v : user),
    users w !! i = Some u -> users w !! j = Some v -> i <> j -> email u <> email v.

Definition bad_request (m : string) : response :=
  {| status := 400; json := Message m |}.

(** Requests handled one after the other, each by its own call of the
    callback. *)
Fixpoint serve `{Platform} (reqs : list request) (w : world) : world :=
  match reqs with
  | [] => w
  | req :: reqs' => serve reqs' (post_register req w).2
  end.

(** The call of [newUser.save()] that the callback makes for a request
    received in [w], once its read has found no document. *)
Definition handler_save `{Platform} (req : request) (w : world) : outcome user * world :=
  save (construct (next_id w) (prop "name" (body req)) (prop "email" (body req))
                  (prop "password" (body req)))
       (set_next_id (N.succ (next_id w))
          (set_journal (fun j => j ++ [FindOne (prop "email" (body req))])
             (set_res None w))).

(** A string that [hashPassword] can return. *)
Definition is_digest `{Platform} (h : string) : Prop :=
  exists (p : string) (w : world), (hashPassword p w).1 = Resolved h.

(** Every password of the collection is a digest. *)
Definition digests_only `{Platform} (w : world) : Prop :=
  forall u : user, u ∈ users w -> is_digest (password u).

(** ** A test double and sample requests *)

(** Stand-ins for the libraries, to run the model on concrete requests. *)
Definition mock : Platform := {|
  crypt s salt := String.substring 0 31 (s +:+ "/0123456789abcdefghijklmnopqrstu");
  castString v := match v with
                  | JBool true => Some "true"
                  | JBool false => Some "false"
                  | _ => None
                  end;
  select v l := Resolved None
|}.

(** An empty collection, a reachable store, salts that differ from draw to
    draw. *)
Definition w0 : world :=
  mkWorld [] 0%N [] [] None 0
          (fun i => "N9qo8uLOickgx2ZMRZoMy" +:+ digit i)
          (fun _ => None).

(** The same, with a store that the first operation cannot reach. *)
Definition w_down : world :=
  mkWorld [] 0%N [] [] None 0
          (fun i => "N9qo8uLOickgx2ZMRZoMy" +:+ digit i)
          (fun i => match i with 0 => Some "ECONNREFUSED" | _ => None end).

(** The same, with a store that the second operation cannot reach. *)
Definition w_write_down : world :=
  mkWorld [] 0%N [] [] None 0
          (fun i => "N9qo8uLOickgx2ZMRZoMy" +:+ digit i)
          (fun i => match i with 1 => Some "ECONNRESET" | _ => None end).



Definition post (n e p : jsval) : request :=
  {| body := list_to_map [("name", n); ("email", e); ("password", p)] |}.

(** The request of the README's "Testing Registration". *)
Definition jane : request :=
  post (JStr "Jane Doe") (JStr "jane@example.com") (JStr "password123").

(** The world after Jane has registered in [w0]. *)
Definition w_jane : world := (@post_register mock jane w0).2.

(** Jane's email again, with the name left empty. *)
Definition jane_unnamed : request :=
  post (JStr "") (JStr "jane@example.com") (JStr "hunter2").

(** Jane's email again, under another name and password. *)
Definition jane_again : request :=
  post (JStr "J. Doe") (JStr "jane@example.com") (JStr "hunter2").

(** Jane's document as the test double's hasher stores it in [w0], and the
    answer that carries it. *)
Definition jane_stored : user :=
  mkUser 0 "Jane Doe" "jane@example.com"
         "$2a$10$N9qo8uLOickgx2ZMRZoMy0password123/0123456789abcdefghi".

Definition jane_created : response :=
  {| status := 201; json := Registered "User registered successfully!" jane_stored |}.

(** Jane's address with a capital letter, otherwise the same request. *)
Definition jane_capital : request :=
  post (JStr "Jane Doe") (JStr "Jane@example.com") (JStr "password123").

(** The document that [new User] makes of Jane's request, before the hook. *)
Definition jane_new : user :=
  mkUser 0 "Jane Doe" "jane@example.com" "password123".



(** A body without a password. *)
Definition no_password : request :=
  {| body := list_to_map [("name", JStr "Jane Doe"); ("email", JStr "jane@example.com")] |}.

(** A body whose password is the number 0. *)
Definition zero_password : request :=
  post (JStr "Jane Doe") (JStr "jane@example.com") (JNum (S754_zero false)).

(** ** Strings *)

Lemma substring_append (s t : string) :
  String.substring 0 (String.length s) (s +:+ t) = s.
Proof.
  induction s as [|c s IH]; simpl.
  - by destruct t.
  - by rewrite IH.
Qed.


Lemma toBoolean_JStr (s : string) : s <> "" -> toBoolean (JStr s) = true.
Proof.
  intros Hs. simpl. destruct (String.eqb_spec s ""); [congruence | done].
Qed.

Lemma toBoolean_falsy (v : jsval) : v ∈ falsy_values -> toBoolean v = false.
Proof.
  unfold falsy_values. rewrite !elem_of_cons, elem_of_nil.
  intros [-> | [-> | [-> | [-> | [-> | []]]]]]; reflexivity.
Qed.

Lemma prop_absent_or_empty (k : string) (req : request) :
  absent_or_empty k req -> toBoolean (prop k (body req)) = false.
Proof.
  unfold prop. by intros [-> | ->].
Qed.

(** ** Searching the collection by email *)

Lemma find_email_None (l : list user) (e : string) :
  List.find (fun u => String.eqb (email u) e) l = None <-> e ∉ email <$> l.
Proof.
  induction l as [|u l IH]; simpl.
  - split; [intros _; apply not_elem_of_nil | done].
  - rewrite not_elem_of_cons.
    destruct (String.eqb_spec (email u) e) as [Heq | Hne].
    + split; [done | intros [Hne _]; congruence].
    + rewrite IH. split; [intros ?; split; [congruence | done] | by intros [_ ?]].
Qed.

Lemma existsb_email_false (l : list user) (e : string) :
  existsb (fun v => String.eqb (email v) e) l = false <-> e ∉ email <$> l.
Proof.
  induction l as [|u l IH]; simpl.
  - split; [intros _; apply not_elem_of_nil | done].
  - rewrite not_elem_of_cons, orb_false_iff, IH.
    destruct (String.eqb_spec (email u) e) as [Heq | Hne].
    + split; [by intros [? _] | intros [Hne _]; congruence].
    + split; [intros [_ ?]; split; [congruence | done] | by intros [_ ?]].
Qed.

Lemma filter_email_absent (l : list user) (e : string) :
  e ∉ email <$> l -> List.filter (fun u => String.eqb (email u) e) l = [].
Proof.
  induction l as [|u l IH]; simpl; [done |].
  rewrite not_elem_of_cons. intros [Hne Hl].
  destruct (String.eqb_spec (email u) e); [congruence | auto].
Qed.

Lemma length_append (s t : string) :
  String.length (s +:+ t) = String.length s + String.length t.
Proof.
  induction s as [|c s IH]; [done |].
  change (String c s +:+ t) with (String c (s +:+ t)). simpl. by rewrite IH.
Qed.

Lemma prop_lookup (k : string) (b : gmap string jsval) (v : jsval) :
  b !! k = Some v -> prop k b = v.
Proof. unfold prop. by intros ->. Qed.

Lemma find_email_elem (l : list user) (e : string) :
  e ∈ email <$> l ->
  exists u, List.find (fun u => String.eqb (email u) e) l = Some u.
Proof.
  intros He. destruct (List.find _ l) as [u|] eqn:Hf; [by exists u |].
  by apply find_email_None in Hf.
Qed.

Lemma NoDup_emails_snoc (l : list user) (u : user) :
  NoDup (email <$> l) -> email u ∉ email <$> l -> NoDup (email <$> (l ++ [u])).
Proof.
  intros Hl Hu. rewrite fmap_app. apply NoDup_app. split; [done |].
  split; [| apply NoDup_singleton].
  intros x Hx Hx'. apply list_elem_of_singleton in Hx'. by subst.
Qed.

(** The pairwise invariant is [NoDup] of the emails. *)
Lemma emails_unique_NoDup (w : world) : emails_unique w <-> NoDup (emails w).
Proof.
  unfold emails_unique, emails. rewrite NoDup_alt. split.
  - intros Hp i j x Hi Hj. rewrite list_lookup_fmap in Hi, Hj.
    destruct (users w !! i) as [u|] eqn:Hu; [|done].
    destruct (users w !! j) as [v|] eqn:Hv; [|done].
    simpl in *. destruct (decide (i = j)) as [|Hne]; [done |].
    exfalso. apply (Hp i j u v Hu Hv Hne). congruence.
  - intros Hnd i j u v Hi Hj Hij Heq. apply Hij, (Hnd i j (email u)).
    + by rewrite list_lookup_fmap, Hi.
    + by rewrite list_lookup_fmap, Hj, Heq.
Qed.

(** ** The credential hasher *)

Section Hasher.
Context `{Platform}.

Lemma salt_length (r : string) :
  String.length r = 22 -> String.length ("$2a$10$" +:+ r) = SALT_LENGTH.
Proof. intros Hr. by rewrite length_append, Hr. Qed.

Lemma hashPassword_run (p : string) (w : world) :
  hashPassword p w
  = (Resolved (("$2a$10$" +:+ entropy w (drawn w))
               +:+ crypt p ("$2a$10$" +:+ entropy w (drawn w))),
     set_drawn (S (drawn w)) w).
Proof. reflexivity. Qed.

(** A digest is compared with itself once its salt has been cut out of it. *)
Lemma compare_own_digest (s salt : string) (w : world) :
  String.length salt = SALT_LENGTH ->
  bcrypt_compare s (salt +:+ crypt s salt) w = (Resolved true, w).
Proof.
  intros Hlen. unfold bcrypt_compare, bcrypt_hash, bind, ret.
  rewrite <- Hlen, substring_append. by rewrite String.eqb_refl.
Qed.



(** C5. Hashing a password and verifying the same password against the
    digest succeeds, for every password string: the empty one and strings
    of arbitrary bytes included.  The salt drawn is a well-formed one, of
    22 characters. *)
Theorem verify_after_hash (p : string) (w : world) :
  String.length (entropy w (drawn w)) = 22 ->
  exists (h : string) (w' : world),
    hashPassword p w = (Resolved h, w')
    /\ verifyPassword p h w' = (Resolved true, w').
Proof.
  intros Hlen. eexists _, _. split; [apply hashPassword_run |].
  by apply compare_own_digest, salt_length.
Qed.


End Hasher.

(** ** The registration handler *)

Section Handler.
Context `{Platform}.

(** *** The model operations *)

Ltac unfold_save :=
  unfold save, bind, pre_save, genSalt, bcrypt_hash, ret, insertOne, bind; simpl.

Lemma findOne_world (v : jsval) (w : world) :
  (findOne v w).2 = set_journal (fun j => j ++ [FindOne v]) w.
Proof.
  unfold findOne. destruct (outage w (length (journal w))); [done |].
  by destruct v.
Qed.

Lemma findOne_set_res (v : jsval) (r : option response) (w : world) :
  (findOne v (set_res r w)).1 = (findOne v w).1.
Proof.
  unfold findOne. simpl. destruct (outage w (length (journal w))); [done |].
  by destruct v.
Qed.

Lemma findOne_string (s : string) (w : world) :
  outage w (length (journal w)) = None ->
  (findOne (JStr s) w).1
  = Resolved (List.find (fun u => String.eqb (email u) s) (users w)).
Proof. unfold findOne. by intros ->. Qed.

Lemma findOne_outage (v : jsval) (w : world) (cause : string) :
  outage w (length (journal w)) = Some cause ->
  (findOne v w).1 = Rejected (MongoNetworkError cause).
Proof. unfold findOne. by intros ->. Qed.

Lemma construct_Doc (id : N) (n e p : jsval) (v : user) :
  construct id n e p = Doc v ->
  _id v = id /\ cast n = Resolved (name v) /\ cast e = Resolved (email v)
  /\ cast p = Resolved (password v).
Proof.
  unfold construct.
  destruct (cast n), (cast e), (cast p); intros [= <-] || discriminate. done.
Qed.

Lemma construct_strings (id : N) (n e p : string) :
  construct id (JStr n) (JStr e) (JStr p) = Doc (mkUser id n e p).
Proof. reflexivity. Qed.

Lemma save_journal (d : Document) (w : world) :
  journal (save d w).2 = journal w ++ [Save d].
Proof.
  unfold save. destruct d as [u | e]; [| done].
  unfold_save.
  destruct (outage w (length (journal w))); [done |].
  by destruct (existsb _ _).
Qed.

(** What a successful [save] has done: the document is a well-typed one,
    its password has been replaced by the digest that [hashPassword] makes
    of it, and it is the one document added to the collection, under an
    email the collection did not hold. *)
Lemma save_resolved (d : Document) (w w' : world) (u : user) :
  save d w = (Resolved u, w') ->
  exists v : user,
    d = Doc v
    /\ _id u = _id v /\ name u = name v /\ email u = email v
    /\ (hashPassword (password v) w).1 = Resolved (password u)
    /\ (email u ∉ emails w)
    /\ w' = set_users (fun l => l ++ [u])
              (set_drawn (S (drawn w)) (set_journal (fun j => j ++ [Save d]) w)).
Proof.
  unfold save. destruct d as [v | e]; [| discriminate].
  unfold_save.
  destruct (outage w (length (journal w))); [discriminate |].
  destruct (existsb _ _) eqn:Hex; [discriminate |].
  intros [= <- <-]. exists v. repeat split. by apply existsb_email_false.
Qed.

(** A [save] that fails has stored nothing, written nothing to the console
    and sent nothing. *)
Lemma save_rejected (d : Document) (w w' : world) (e : js_error) :
  save d w = (Rejected e, w') ->
  users w' = users w /\ console w' = console w /\ res w' = res w.
Proof.
  unfold save. destruct d as [v | e']; [| by intros [= <- <-]].
  unfold_save.
  destruct (outage w (length (journal w))); [by intros [= <- <-] |].
  destruct (existsb _ _); [by intros [= <- <-] | discriminate].
Qed.

(** After a read that found no document under a string email, the document
    made for that email passes the unique index: in sequential use the
    handler's own check already keeps the index from ever firing. *)
Lemma read_null_passes_index (e : string) (id : N) (n p : jsval) (v : user) (w : world) :
  (findOne (JStr e) w).1 = Resolved None ->
  construct id n (JStr e) p = Doc v ->
  existsb (fun x => String.eqb (email x) (email v)) (users w) = false.
Proof.
  intros Hread Hd. apply construct_Doc in Hd as (_ & _ & [= He] & _).
  rewrite <- He. apply existsb_email_false, find_email_None.
  revert Hread. unfold findOne.
  destruct (outage w (length (journal w))); [discriminate |]. by intros [= ->].
Qed.

(** A document of strings under a new email is saved when the store can be
    reached. *)
Lemma save_strings (u : user) (w : world) :
  outage w (length (journal w)) = None ->
  email u ∉ emails w ->
  save (Doc u) w
  = (let salt := "$2a$10$" +:+ entropy w (drawn w) in
     let this := mkUser (_id u) (name u) (email u) (salt +:+ crypt (password u) salt) in
     (Resolved this,
      set_users (fun l => l ++ [this])
        (set_drawn (S (drawn w)) (set_journal (fun j => j ++ [Save (Doc u)]) w)))).
Proof.
  intros Hup Hnew. apply existsb_email_false in Hnew.
  unfold_save. by rewrite Hup, Hnew.
Qed.

(** *** The paths through the handler *)

Lemma register_incomplete (req : request) (w : world) :
  all_present req = false ->
  register req w
  = (Resolved tt, set_res (Some (bad_request "All fields are required.")) w).
Proof.
  unfold all_present, register. intros Hg.
  destruct (toBoolean (prop "name" (body req))),
           (toBoolean (prop "email" (body req))),
           (toBoolean (prop "password" (body req))); try discriminate Hg; reflexivity.
Qed.

Lemma register_complete (req : request) (w : world) :
  all_present req = true ->
  register req w
  = (existingUser <- findOne (prop "email" (body req)) ;;
     match existingUser with
     | Some _ => res_status_json 400 (Message "Email is already registered.")
     | None =>
         newUser <- new_User (prop "name" (body req)) (prop "email" (body req))
                             (prop "password" (body req)) ;;
         try_catch
           (savedUser <- save newUser ;;
            console_log savedUser ;;
            res_status_json 201 (Registered "User registered successfully!" savedUser))
           (fun err =>
              console_error err ;;
              res_status_json 500 (Message "Server error"))
     end) w.
Proof.
  unfold all_present, register. intros Hg.
  destruct (toBoolean (prop "name" (body req))),
           (toBoolean (prop "email" (body req))),
           (toBoolean (prop "password" (body req))); try discriminate Hg; reflexivity.
Qed.

(** Every path, once the three fields are present: the read fails and the
    rejection leaves the handler; the read finds a document; or the read
    finds none, and the outcome of [save] decides between 201 and 500. *)
Lemma register_paths (req : request) (w : world) :
  all_present req = true ->
  register req w
  = let email' := prop "email" (body req) in
    let w1 := set_journal (fun j => j ++ [FindOne email']) w in
    match (findOne email' w).1 with
    | Rejected e => (Rejected e, w1)
    | Resolved (Some _) =>
        (Resolved tt, set_res (Some (bad_request "Email is already registered.")) w1)
    | Resolved None =>
        let d := construct (next_id w) (prop "name" (body req)) email'
                           (prop "password" (body req)) in
        match save d (set_next_id (N.succ (next_id w)) w1) with
        | (Resolved u, w3) =>
            (Resolved tt,
             set_res (Some {| status := 201;
                              json := Registered "User registered successfully!" u |})
                     (set_console (fun c => c ++ [LogUser u]) w3))
        | (Rejected e, w3) =>
            (Resolved tt,
             set_res (Some {| status := 500; json := Message "Server error" |})
                     (set_console (fun c => c ++ [LogError e]) w3))
        end
    end.
Proof.
  intros Hg. cbv zeta. rewrite register_complete by done.
  unfold bind at 1. pose proof (findOne_world (prop "email" (body req)) w) as Hw.
  destruct (findOne (prop "email" (body req)) w) as [[[u|]|e] w1];
    cbn [fst snd] in *; subst w1.
  - reflexivity.
  - unfold bind at 1, new_User at 1, try_catch, bind at 1.
    destruct (save _ _) as [[u|e] w3]; reflexivity.
  - reflexivity.
Qed.

Lemma all_present_strings (req : request) (n e p : string) :
  body req !! "name" = Some (JStr n) ->
  body req !! "email" = Some (JStr e) ->
  body req !! "password" = Some (JStr p) ->
  n <> "" -> e <> "" -> p <> "" ->
  all_present req = true.
Proof.
  intros Hn He Hp ? ? ?. unfold all_present.
  rewrite (prop_lookup _ _ _ Hn), (prop_lookup _ _ _ He), (prop_lookup _ _ _ Hp).
  by rewrite !toBoolean_JStr.
Qed.

(** The whole effect of a request of non-empty strings under a new email,
    when both model operations reach the store. *)
Lemma register_new_strings (req : request) (w : world) (n e p : string) :
  body req !! "name" = Some (JStr n) ->
  body req !! "email" = Some (JStr e) ->
  body req !! "password" = Some (JStr p) ->
  n <> "" -> e <> "" -> p <> "" ->
  e ∉ emails w ->
  outage w (length (journal w)) = None ->
  outage w (S (length (journal w))) = None ->
  register req w
  = (let salt := "$2a$10$" +:+ entropy w (drawn w) in
     let u := mkUser (next_id w) n e (salt +:+ crypt p salt) in
     (Resolved tt,
      set_res (Some {| status := 201;
                       json := Registered "User registered successfully!" u |})
        (set_console (fun c => c ++ [LogUser u])
           (set_users (fun l => l ++ [u])
              (set_drawn (S (drawn w))
                 (set_journal (fun j => j ++ [Save (Doc (mkUser (next_id w) n e p))])
                    (set_next_id (N.succ (next_id w))
                       (set_journal (fun j => j ++ [FindOne (JStr e)]) w)))))))).
Proof.
  intros Hn He Hp Hn0 He0 Hp0 Hnew Hread Hwrite.
  rewrite register_paths by eauto using all_present_strings. cbv zeta.
  rewrite (prop_lookup _ _ _ Hn), (prop_lookup _ _ _ He), (prop_lookup _ _ _ Hp).
  rewrite findOne_string by done.
  pose proof Hnew as Hfind. apply find_email_None in Hfind. rewrite Hfind.
  rewrite construct_strings, save_strings; [done | | done].
  simpl. by rewrite length_app, Nat.add_1_r.
Qed.

(** The collection after a request: as before, or with one more document
    whose email it did not hold. *)
Lemma register_users (req : request) (w : world) :
  users (register req w).2 = users w
  \/ exists u : user,
       users (register req w).2 = users w ++ [u] /\ email u ∉ emails w.
Proof.
  destruct (all_present req) eqn:Hg.
  2: { rewrite register_incomplete by done. by left. }
  rewrite register_paths by done. cbv zeta.
  destruct (findOne _ w).1 as [[v|]|e]; [by left | | by left].
  destruct (save _ _) as [[u|e] w3] eqn:Hsave; simpl.
  - apply save_resolved in Hsave as (v & _ & _ & _ & _ & _ & Hu & ->).
    right. by exists u.
  - apply save_rejected in Hsave as (-> & _). by left.
Qed.

(** The model operations of a request whose three fields are present. *)
Lemma register_journal (req : request) (w : world) :
  all_present req = true ->
  journal (register req w).2
  = journal w ++ FindOne (prop "email" (body req))
      :: match (findOne (prop "email" (body req)) w).1 with
         | Resolved None =>
             [Save (construct (next_id w) (prop "name" (body req))
                              (prop "email" (body req)) (prop "password" (body req)))]
         | _ => []
         end.
Proof.
  intros Hg. rewrite register_paths by done. cbv zeta.
  destruct (findOne _ w).1 as [[v|]|e]; [done | | done].
  match goal with |- context [save ?d ?w] =>
    pose proof (save_journal d w) as Hj end.
  destruct (save _ _) as [[u|e] w3]; simpl in *; rewrite Hj; by rewrite <- app_assoc.
Qed.

(** A 201 is sent on one path only. *)
Lemma register_created (req : request) (w : world) (r : response) :
  res w = None ->
  res (register req w).2 = Some r ->
  status r = 201 ->
  all_present req = true
  /\ exists (u : user) (p : string),
       json r = Registered "User registered successfully!" u
       /\ users (register req w).2 = users w ++ [u]
       /\ cast (prop "email" (body req)) = Resolved (email u)
       /\ (email u ∉ emails w)
       /\ cast (prop "password" (body req)) = Resolved p
       /\ (hashPassword p w).1 = Resolved (password u).
Proof.
  intros Hres Hr Hst.
  destruct (all_present req) eqn:Hg.
  2: { rewrite register_incomplete in Hr by done. simpl in Hr.
       injection Hr as <-. discriminate Hst. }
  split; [done |].
  revert Hr. rewrite register_paths by done. cbv zeta.
  destruct (findOne _ w).1 as [[v|]|e]; simpl.
  - intros [= <-]. discriminate Hst.
  - destruct (save _ _) as [[u|e] w3] eqn:Hsave; simpl.
    + intros [= <-].
      apply save_resolved in Hsave as (v & Hd & _ & _ & He & Hp & Hu & ->).
      apply construct_Doc in Hd as (_ & _ & Hce & Hcp).
      exists u, (password v). rewrite He. repeat split; try done.
      rewrite <- He. exact Hu.
    + intros [= <-]. discriminate Hst.
  - rewrite Hres. discriminate.
Qed.

End Handler.

(** ** The properties of the specification *)

Section Properties.
Context `{Platform}.


(** C3. When [name], [email] or [password] is absent from the body or is
    the empty string, the handler answers 400 with "All fields are
    required." and changes nothing else: no document is stored and the model
    is not called. *)
Theorem missing_field_rejected (req : request) (w : world) :
  absent_or_empty "name" req \/ absent_or_empty "email" req
  \/ absent_or_empty "password" req ->
  post_register req w
  = (Resolved tt, set_res (Some (bad_request "All fields are required.")) w)
  /\ users (post_register req w).2 = users w
  /\ journal (post_register req w).2 = journal w.
Proof.
  intros Hmiss.
  assert (all_present req = false) as Hg.
  { unfold all_present.
    destruct Hmiss as [Hm | [Hm | Hm]]; apply prop_absent_or_empty in Hm;
      rewrite Hm; by rewrite ?andb_false_r. }
  unfold post_register. by rewrite register_incomplete.
Qed.

(** C10. The presence check rejects every falsy value the same way: when
    one of the three fields is absent ([undefined]), [null], the empty
    string, [0] or [false], the handler answers 400 with "All fields are
    required." and does not touch the store. *)
Theorem falsy_field_rejected (req : request) (w : world) :
  prop "name" (body req) ∈ falsy_values \/ prop "email" (body req) ∈ falsy_values
  \/ prop "password" (body req) ∈ falsy_values ->
  post_register req w
  = (Resolved tt, set_res (Some (bad_request "All fields are required.")) w)
  /\ users (post_register req w).2 = users w
  /\ journal (post_register req w).2 = journal w.
Proof.
  intros Hfalsy.
  assert (all_present req = false) as Hg.
  { unfold all_present.
    destruct Hfalsy as [Hf | [Hf | Hf]]; apply toBoolean_falsy in Hf;
      rewrite Hf; by rewrite ?andb_false_r. }
  unfold post_register. by rewrite register_incomplete.
Qed.

(** C4. Uniqueness of emails is an invariant of the collection: if no two
    documents share an email before a request, none do after it, whatever
    the request and whatever its outcome. *)
Theorem email_uniqueness_preserved (req : request) (w : world) :
  emails_unique w -> emails_unique (post_register req w).2.
Proof.
  rewrite !emails_unique_NoDup. intros Hw. unfold post_register, emails.
  destruct (register_users req (set_res None w)) as [-> | (u & -> & Hu)]; simpl.
  - done.
  - by apply NoDup_emails_snoc.
Qed.

(** C9. Whenever the handler answers 201, the body carries, as
    [savedUser], the very document that was added to the collection, and the
    password of that document is the digest of the submitted password: the
    digest is sent back to the caller. *)
Theorem created_response_carries_digest (req : request) (w : world) (r : response) :
  res (post_register req w).2 = Some r ->
  status r = 201 ->
  exists (u : user) (p : string),
    json r = Registered "User registered successfully!" u
    /\ users (post_register req w).2 = users w ++ [u]
    /\ cast (prop "password" (body req)) = Resolved p
    /\ (hashPassword p w).1 = Resolved (password u).
Proof.
  intros Hr Hst.
  destruct (register_created req (set_res None w) r) as (_ & u & p & Hj & Hu & _ & _ & Hp & Hh);
    try done.
  by exists u, p.
Qed.

(** C8, as amended.  A request that fails the presence check issues no
    model operation.  A request that passes it issues exactly one read,
    [findOne] on its email; when that read settles to [null] exactly one
    write, [save], follows, and in every other case (a document found, the
    read rejected) nothing follows.  No operation is ever retried. *)
Theorem model_operations_per_request (req : request) (w : world) :
  (all_present req = false -> journal (post_register req w).2 = journal w)
  /\ (all_present req = true ->
      (findOne (prop "email" (body req)) w).1 = Resolved None ->
      exists d : Document,
        journal (post_register req w).2
        = journal w ++ [FindOne (prop "email" (body req)); Save d])
  /\ (all_present req = true ->
      (findOne (prop "email" (body req)) w).1 <> Resolved None ->
      journal (post_register req w).2
      = journal w ++ [FindOne (prop "email" (body req))]).
Proof.
  unfold post_register. split; [| split].
  - intros Hg. by rewrite register_incomplete.
  - intros Hg Hnone. rewrite register_journal by done.
    rewrite findOne_set_res.
    rewrite Hnone. by eexists.
  - intros Hg Hsome. rewrite register_journal by done.
    rewrite findOne_set_res.
    by destruct (findOne _ w).1 as [[v|]|e].
Qed.

(** C2, as amended.  After a registration that was answered 201, a second
    request with the same email string and with a name and a password that
    pass the presence check is answered 400 with "Email is already
    registered." when its read reaches the store; it stores nothing, and the
    collection holds exactly one document with that email. *)
Theorem second_registration_rejected (req1 req2 : request) (w : world) (e : string) :
  body req1 !! "email" = Some (JStr e) ->
  body req2 !! "email" = Some (JStr e) ->
  toBoolean (prop "name" (body req2)) = true ->
  toBoolean (prop "password" (body req2)) = true ->
  status <$> res (post_register req1 w).2 = Some 201 ->
  outage (post_register req1 w).2 (length (journal (post_register req1 w).2)) = None ->
  exists w2 : world,
    post_register req2 (post_register req1 w).2 = (Resolved tt, w2)
    /\ res w2 = Some (bad_request "Email is already registered.")
    /\ users w2 = users (post_register req1 w).2
    /\ count_email e w2 = 1.
Proof.
  intros He1 He2 Hn2 Hp2 Hst Hread.
  destruct (res (post_register req1 w).2) as [r|] eqn:Hr; [| discriminate].
  injection Hst as Hst.
  destruct (register_created req1 (set_res None w) r) as (Hg1 & u & p & _ & Hu & Hce & Hnew & _);
    try done.
  rewrite (prop_lookup _ _ _ He1) in Hce. injection Hce as Hce.
  rewrite <- Hce in Hnew.
  assert (all_present req2 = true) as Hg2.
  { revert Hg1. unfold all_present.
    rewrite (prop_lookup _ _ _ He1), (prop_lookup _ _ _ He2), Hn2, Hp2.
    intros Hg1. apply andb_prop in Hg1 as [Hg1 _].
    apply andb_prop in Hg1 as [_ ->]. done. }
  assert (e ∈ emails (post_register req1 w).2) as Hin.
  { unfold emails, post_register. rewrite Hu, fmap_app. set_solver. }
  assert (count_email e (post_register req1 w).2 = 1) as Hcount.
  { unfold count_email, post_register. rewrite Hu, List.filter_app.
    rewrite filter_email_absent by done. simpl. by rewrite <- Hce, String.eqb_refl. }
  revert Hread Hin Hcount. generalize (post_register req1 w).2.
  intros w1 Hread Hin Hcount.
  unfold post_register. rewrite register_paths by done. cbv zeta.
  rewrite (prop_lookup _ _ _ He2), findOne_string by done.
  destruct (find_email_elem _ _ Hin) as [v Hv]. simpl. rewrite Hv.
  eexists. split; [reflexivity |]. done.
Qed.

(** *** Failures of the store *)

(** A [save] that fails is caught: the cause goes to the console, the
    caller gets 500 and "Server error", and nothing is stored. *)
Lemma write_failure_is_server_error (req : request) (w w3 : world) (e : js_error) :
  all_present req = true ->
  (findOne (prop "email" (body req)) w).1 = Resolved None ->
  save (construct (next_id w) (prop "name" (body req)) (prop "email" (body req))
                  (prop "password" (body req)))
       (set_next_id (N.succ (next_id w))
          (set_journal (fun j => j ++ [FindOne (prop "email" (body req))])
             (set_res None w)))
  = (Rejected e, w3) ->
  (post_register req w).1 = Resolved tt
  /\ res (post_register req w).2
     = Some {| status := 500; json := Message "Server error" |}
  /\ console (post_register req w).2 = console w ++ [LogError e]
  /\ users (post_register req w).2 = users w.
Proof.
  intros Hg Hnone Hsave. unfold post_register.
  rewrite register_paths by done. cbv zeta.
  rewrite findOne_set_res, Hnone. cbn [next_id set_res]. rewrite Hsave.
  apply save_rejected in Hsave as (Hu & Hc & _). simpl.
  by rewrite Hu, Hc.
Qed.

(** A [findOne] that fails is not caught: the promise of the callback is
    rejected with the cause, nothing is sent and nothing is logged. *)
Lemma read_failure_escapes (req : request) (w : world) (cause : string) :
  all_present req = true ->
  outage w (length (journal w)) = Some cause ->
  (post_register req w).1 = Rejected (MongoNetworkError cause)
  /\ res (post_register req w).2 = None
  /\ console (post_register req w).2 = console w
  /\ users (post_register req w).2 = users w.
Proof.
  intros Hg Hout. unfold post_register.
  rewrite register_paths by done. cbv zeta.
  by rewrite findOne_set_res, (findOne_outage _ _ cause).
Qed.

End Properties.

(** ** The properties on the README's request *)



(** Witness of C2 as amended: Jane's email again, after Jane. *)
Lemma second_registration_rejected_jane :
  exists w2 : world,
    @post_register mock jane_again (@post_register mock jane w0).2 = (Resolved tt, w2)
    /\ res w2 = Some (bad_request "Email is already registered.")
    /\ users w2 = users (@post_register mock jane w0).2
    /\ count_email "jane@example.com" w2 = 1.
Proof.
  apply (@second_registration_rejected mock jane jane_again w0 "jane@example.com");
    reflexivity.
Defined.

(** C2 as stated fails: after Jane has registered, a request with her email
    and an empty name is answered "All fields are required.", not "Email is
    already registered.". *)
Lemma same_email_empty_name :
  body jane_unnamed !! "email" = body jane !! "email"
  /\ res (@post_register mock jane w0).2 = Some jane_created
  /\ res (@post_register mock jane_unnamed (@post_register mock jane w0).2).2
     = Some (bad_request "All fields are required.")
  /\ res (@post_register mock jane_unnamed (@post_register mock jane w0).2).2
     <> Some (bad_request "Email is already registered.").
Proof. repeat split. discriminate. Qed.

(** Witness of C3: a body without a password. *)
Lemma missing_field_rejected_no_password :
  @post_register mock no_password w0
  = (Resolved tt, set_res (Some (bad_request "All fields are required.")) w0)
  /\ users (@post_register mock no_password w0).2 = users w0
  /\ journal (@post_register mock no_password w0).2 = journal w0.
Proof.
  apply (@missing_field_rejected mock no_password w0).
  right. right. left. reflexivity.
Defined.

(** Witness of C10: a password that is the number 0. *)
Lemma falsy_field_rejected_zero :
  @post_register mock zero_password w0
  = (Resolved tt, set_res (Some (bad_request "All fields are required.")) w0)
  /\ users (@post_register mock zero_password w0).2 = users w0
  /\ journal (@post_register mock zero_password w0).2 = journal w0.
Proof.
  apply (@falsy_field_rejected mock zero_password w0).
  right. right. do 3 apply list_elem_of_further. apply list_elem_of_here.
Defined.

(** Witness of C4: Jane's email again, on the collection that holds Jane. *)
Lemma email_uniqueness_preserved_jane :
  emails_unique (@post_register mock jane_again w_jane).2.
Proof.
  apply (@email_uniqueness_preserved mock jane_again w_jane).
  apply emails_unique_NoDup. apply NoDup_singleton.
Defined.

(** Witness of C5: the empty password. *)
Lemma verify_after_hash_empty :
  exists (h : string) (w' : world),
    @hashPassword mock "" w0 = (Resolved h, w')
    /\ @verifyPassword mock "" h w' = (Resolved true, w').
Proof. apply (@verify_after_hash mock "" w0). reflexivity. Defined.

(** The same on a password outside ASCII, run on the test double. *)
Example hash_then_verify_utf8 :
  ((h <- @hashPassword mock "pässwörd ✓" ;; @verifyPassword mock "pässwörd ✓" h) w0).1
  = Resolved true.
Proof. reflexivity. Qed.



(** Witness of C9: the answer to Jane's registration. *)
Lemma created_response_carries_digest_jane :
  exists (u : user) (p : string),
    json jane_created = Registered "User registered successfully!" u
    /\ users (@post_register mock jane w0).2 = users w0 ++ [u]
    /\ @cast mock (prop "password" (body jane)) = Resolved p
    /\ (@hashPassword mock p w0).1 = Resolved (password u).
Proof.
  apply (@created_response_carries_digest mock jane w0 jane_created); reflexivity.
Defined.

(** Witness of C8 as amended: Jane's registration reads once and writes once. *)
Lemma model_operations_jane :
  exists d : Document,
    journal (@post_register mock jane w0).2
    = journal w0 ++ [FindOne (prop "email" (body jane)); Save d].
Proof.
  apply (proj1 (proj2 (@model_operations_per_request mock jane w0))); reflexivity.
Defined.

(** C8 as stated fails: a request with an empty name issues no read at all;
    the journal stays as Jane's registration left it. *)
Lemma incomplete_request_reads_nothing :
  all_present jane_unnamed = false
  /\ journal w_jane = [FindOne (JStr "jane@example.com");
                       Save (Doc (mkUser 0 "Jane Doe" "jane@example.com" "password123"))]
  /\ journal (@post_register mock jane_unnamed w_jane).2 = journal w_jane.
Proof. repeat split. Qed.

(** The sibling path: the same outage met by [save] is caught, logged and
    answered 500. *)
Example write_outage_is_caught :
  (@post_register mock jane w_write_down).1 = Resolved tt
  /\ res (@post_register mock jane w_write_down).2
     = Some {| status := 500; json := Message "Server error" |}
  /\ console (@post_register mock jane w_write_down).2
     = [LogError (MongoNetworkError "ECONNRESET")]
  /\ users (@post_register mock jane w_write_down).2 = [].
Proof. repeat split. Qed.

(** C7. The claim fails on the read: when the store cannot be reached by
    [findOne], the rejection leaves the handler uncaught.  No response is
    sent, so no 500 and no "Server error", and the cause is not logged. *)
Theorem read_outage_escapes_handler :
  all_present jane = true
  /\ outage w_down (length (journal w_down)) = Some "ECONNREFUSED"
  /\ (@post_register mock jane w_down).1 = Rejected (MongoNetworkError "ECONNREFUSED")
  /\ res (@post_register mock jane w_down).2 = None
  /\ console (@post_register mock jane w_down).2 = [].
Proof. repeat split. Qed.

(** ** Further properties of the handler, the hook and the hasher *)

Section Coverage.
Context `{Platform}.

Lemma save_rejected_drawn (d : Document) (w w' : world) (e : js_error) :
  save d w = (Rejected e, w') ->
  drawn w' = drawn w \/ drawn w' = S (drawn w).
Proof.
  unfold save. destruct d as [v | e']; [| intros [= <- <-]; by left].
  unfold save, bind, pre_save, genSalt, bcrypt_hash, ret, insertOne, bind; simpl.
  destruct (outage w (length (journal w))); [intros [= <- <-]; by right |].
  destruct (existsb _ _); [intros [= <- <-]; by right | discriminate].
Qed.

(** The five ways a request ends, with what each leaves behind. *)
Lemma post_register_cases (req : request) (w : world) :
  let o := (post_register req w).1 in
  let w' := (post_register req w).2 in
  (all_present req = false /\ o = Resolved tt
   /\ res w' = Some (bad_request "All fields are required.")
   /\ users w' = users w /\ console w' = console w /\ drawn w' = drawn w)
  \/ (all_present req = true
      /\ (exists e, (findOne (prop "email" (body req)) w).1 = Rejected e /\ o = Rejected e)
      /\ res w' = None
      /\ users w' = users w /\ console w' = console w /\ drawn w' = drawn w)
  \/ (all_present req = true
      /\ (exists v, (findOne (prop "email" (body req)) w).1 = Resolved (Some v))
      /\ o = Resolved tt
      /\ res w' = Some (bad_request "Email is already registered.")
      /\ users w' = users w /\ console w' = console w /\ drawn w' = drawn w)
  \/ (all_present req = true
      /\ (findOne (prop "email" (body req)) w).1 = Resolved None
      /\ o = Resolved tt
      /\ exists (u : user) (p : string),
           res w' = Some {| status := 201;
                            json := Registered "User registered successfully!" u |}
           /\ users w' = users w ++ [u]
           /\ console w' = console w ++ [LogUser u]
           /\ drawn w' = S (drawn w)
           /\ cast (prop "email" (body req)) = Resolved (email u)
           /\ cast (prop "password" (body req)) = Resolved p
           /\ (hashPassword p w).1 = Resolved (password u)
           /\ (email u ∉ emails w))
  \/ (all_present req = true
      /\ (findOne (prop "email" (body req)) w).1 = Resolved None
      /\ o = Resolved tt
      /\ res w' = Some {| status := 500; json := Message "Server error" |}
      /\ users w' = users w
      /\ (exists e, console w' = console w ++ [LogError e])
      /\ (drawn w' = drawn w \/ drawn w' = S (drawn w))).
Proof.
  cbv zeta. unfold post_register.
  destruct (all_present req) eqn:Hg.
  2: { left. by rewrite register_incomplete. }
  right. rewrite register_paths by done. cbv zeta. rewrite findOne_set_res.
  destruct (findOne _ w).1 as [[v|]|e] eqn:Hread.
  - right. left. repeat split; eauto.
  - right. right. cbn [next_id set_res].
    destruct (save _ _) as [[u|e] w3] eqn:Hsave; cbn [fst snd].
    + left. apply save_resolved in Hsave as (v & Hd & _ & _ & He & Hp & Hu & ->).
      apply construct_Doc in Hd as (_ & _ & Hce & Hcp).
      repeat split; try done. exists u, (password v). rewrite He.
      repeat split; try done. rewrite <- He. exact Hu.
    + right. pose proof (save_rejected_drawn _ _ _ _ Hsave) as Hdr.
      apply save_rejected in Hsave as (Hu & Hc & _). simpl.
      rewrite Hu, Hc. repeat split; eauto.
  - left. repeat split; eauto.
Qed.


(** ** What every request does *)

(** X1. The promise of the callback is rejected in one case only: the
    three fields are present and [User.findOne] was rejected; the rejection
    is then the read's own. *)
Theorem rejection_is_the_read_failure (req : request) (w : world) (e : js_error) :
  (post_register req w).1 = Rejected e
  <-> all_present req = true
      /\ (findOne (prop "email" (body req)) w).1 = Rejected e.
Proof.
  destruct (post_register_cases req w)
    as [(Hg & Ho & _) | [(Hg & (e' & Hread & Ho) & _) | [(Hg & (v & Hread) & Ho & _)
        | [(Hg & Hread & Ho & _) | (Hg & Hread & Ho & _)]]]];
    rewrite Ho; split; try discriminate; try (intros [Hg' Hread']; congruence).
  intros [= <-]. done.
Qed.

(** X2. A response is sent exactly when the promise of the callback
    resolves: every resolved run has answered, and a rejected run leaves the
    caller without an answer. *)
Theorem response_iff_resolved (req : request) (w : world) :
  (post_register req w).1 = Resolved tt <-> is_Some (res (post_register req w).2).
Proof.
  destruct (post_register_cases req w)
    as [(_ & Ho & Hr & _) | [(_ & (e' & _ & Ho) & Hr & _) | [(_ & _ & Ho & Hr & _)
        | [(_ & _ & Ho & u & p & Hr & _) | (_ & _ & Ho & Hr & _)]]]];
    rewrite Ho, Hr; split; eauto; try discriminate.
  intros [r [=]].
Qed.

(** X3. The handler has four answers and no other: the two 400 messages,
    the 500 with the constant "Server error" (nothing of the error reaches
    the caller), and the 201 whose [savedUser] is the last document of the
    collection. *)
Theorem response_table (req : request) (w : world) (r : response) :
  res (post_register req w).2 = Some r ->
  r = bad_request "All fields are required."
  \/ r = bad_request "Email is already registered."
  \/ r = {| status := 500; json := Message "Server error" |}
  \/ exists u : user,
       r = {| status := 201; json := Registered "User registered successfully!" u |}
       /\ last (users (post_register req w).2) = Some u.
Proof.
  destruct (post_register_cases req w)
    as [(_ & _ & Hr & _) | [(_ & _ & Hr & _) | [(_ & _ & _ & Hr & _)
        | [(_ & _ & _ & u & p & Hr & Hu & _) | (_ & _ & _ & Hr & _)]]]];
    rewrite Hr; intros [= <-]; eauto.
  right. right. right. exists u. split; [done |]. by rewrite Hu, last_snoc.
Qed.


(** X5. "All fields are required." is the answer exactly when one of the
    three fields is falsy under ToBoolean; no other path sends it. *)
Theorem validation_error_iff_falsy (req : request) (w : world) :
  res (post_register req w).2 = Some (bad_request "All fields are required.")
  <-> toBoolean (prop "name" (body req)) = false
      \/ toBoolean (prop "email" (body req)) = false
      \/ toBoolean (prop "password" (body req)) = false.
Proof.
  assert (all_present req = false
          <-> toBoolean (prop "name" (body req)) = false
              \/ toBoolean (prop "email" (body req)) = false
              \/ toBoolean (prop "password" (body req)) = false) as <-.
  { unfold all_present. rewrite !andb_false_iff. tauto. }
  destruct (post_register_cases req w)
    as [(Hg & _ & Hr & _) | [(Hg & _ & Hr & _) | [(Hg & _ & _ & Hr & _)
        | [(Hg & _ & _ & u & p & Hr & _) | (Hg & _ & _ & Hr & _)]]]];
    rewrite Hr, Hg; split; try done; try discriminate.
Qed.

(** X6. For an email that is a string, in a request that passes the
    presence check and whose read reaches the store, "Email is already
    registered." is the answer exactly when the collection holds that
    email. *)
Theorem duplicate_answer_iff_registered (req : request) (w : world) (e : string) :
  body req !! "email" = Some (JStr e) ->
  all_present req = true ->
  outage w (length (journal w)) = None ->
  res (post_register req w).2 = Some (bad_request "Email is already registered.")
  <-> e ∈ emails w.
Proof.
  intros He Hg Hout.
  pose proof (findOne_string e w Hout) as Hfind.
  destruct (post_register_cases req w)
    as [(Hg' & _) | [(_ & (e' & Hread & _) & _) | [(_ & (v & Hread) & _ & Hr & _)
        | [(_ & Hread & _ & u & p & Hr & _) | (_ & Hread & _ & Hr & _)]]]];
    try congruence; rewrite (prop_lookup _ _ _ He) in Hread; rewrite Hread in Hfind.
  - discriminate.
  - rewrite Hr. split; [intros _ | done].
    destruct (decide (e ∈ emails w)) as [|Hn]; [done |].
    apply find_email_None in Hn. congruence.
  - rewrite Hr. split; [discriminate |]. intros Hin.
    injection Hfind as Hfind. symmetry in Hfind. by apply find_email_None in Hfind.
  - rewrite Hr. split; [discriminate |]. intros Hin.
    injection Hfind as Hfind. symmetry in Hfind. by apply find_email_None in Hfind.
Qed.

(** X7. Salts are drawn on the save path only: a request answered 400
    draws no salt from the random source, and a request answered 201 draws
    exactly one. *)
Theorem salt_drawn_on_save_only (req : request) (w : world) (r : response) :
  res (post_register req w).2 = Some r ->
  (status r = 400 -> drawn (post_register req w).2 = drawn w)
  /\ (status r = 201 -> drawn (post_register req w).2 = S (drawn w)).
Proof.
  destruct (post_register_cases req w)
    as [(_ & _ & Hr & _ & _ & Hd) | [(_ & _ & Hr & _) | [(_ & _ & _ & Hr & _ & _ & Hd)
        | [(_ & _ & _ & u & p & Hr & _ & _ & Hd & _) | (_ & _ & _ & Hr & _)]]]];
    rewrite Hr; intros [= <-]; split; try done; try discriminate.
Qed.

(** X8. The console follows the answer: a 201 logs the user that [save]
    resolved to, digest included; a 500 logs the very error that [save] was
    rejected with and the handler caught; a 400 logs nothing. *)
Theorem logging_follows_response (req : request) (w : world) (r : response) :
  res (post_register req w).2 = Some r ->
  (status r = 201 ->
   exists u, (handler_save req w).1 = Resolved u
             /\ json r = Registered "User registered successfully!" u
             /\ console (post_register req w).2 = console w ++ [LogUser u])
  /\ (status r = 500 ->
      exists e, (handler_save req w).1 = Rejected e
                /\ console (post_register req w).2 = console w ++ [LogError e])
  /\ (status r = 400 -> console (post_register req w).2 = console w).
Proof.
  unfold post_register, handler_save.
  destruct (all_present req) eqn:Hg.
  2: { rewrite register_incomplete by done. simpl. intros [= <-].
       repeat split; done || discriminate. }
  rewrite register_paths by done. cbv zeta. cbn [next_id set_res].
  destruct (findOne _ _).1 as [[v|]|e].
  - simpl. intros [= <-]. repeat split; done || discriminate.
  - destruct (save _ _) as [[u|e] w3] eqn:Hsave; cbn [fst snd].
    + apply save_resolved in Hsave as (_ & _ & _ & _ & _ & _ & _ & ->).
      simpl. intros [= <-]. repeat split; try discriminate. intros _. by exists u.
    + apply save_rejected in Hsave as (_ & Hc & _).
      simpl. rewrite Hc. intros [= <-]. repeat split; try discriminate.
      intros _. by exists e.
  - simpl. intros [=].
Qed.

(** ** Registration and verification *)

(** X9. Registration and verification compose: after a successful
    registration, [verifyPassword] accepts the submitted password against
    the password field of the stored document. *)
Theorem registered_password_verifies (req : request) (w : world) (n e p : string) :
  body req !! "name" = Some (JStr n) ->
  body req !! "email" = Some (JStr e) ->
  body req !! "password" = Some (JStr p) ->
  n <> "" -> e <> "" -> p <> "" ->
  e ∉ emails w ->
  outage w (length (journal w)) = None ->
  outage w (S (length (journal w))) = None ->
  String.length (entropy w (drawn w)) = 22 ->
  exists (u : user) (w' : world),
    post_register req w = (Resolved tt, w')
    /\ last (users w') = Some u
    /\ email u = e
    /\ verifyPassword p (password u) w' = (Resolved true, w').
Proof.
  intros Hn He Hp Hn0 He0 Hp0 Hnew Hread Hwrite Hlen.
  unfold post_register.
  rewrite (register_new_strings req (set_res None w) n e p) by done.
  eexists _, _. split; [reflexivity |]. simpl. rewrite last_snoc.
  repeat split. by apply compare_own_digest, salt_length.
Qed.

(** A digest gives its salt back. *)
Lemma embedded_salt (salt c : string) :
  String.length salt = SALT_LENGTH ->
  String.substring 0 SALT_LENGTH (salt +:+ c) = salt.
Proof. intros <-. apply substring_append. Qed.

(** Comparing a candidate with a digest is comparing two checksums. *)
Lemma compare_digest (q salt c : string) (w : world) :
  String.length salt = SALT_LENGTH ->
  (bcrypt_compare q (salt +:+ c) w).1 = Resolved true <-> crypt q salt = c.
Proof.
  intros Hlen. unfold bcrypt_compare, bcrypt_hash, bind, ret. cbn [fst].
  rewrite embedded_salt by done. split.
  - intros [= Heq]. apply String.eqb_eq in Heq. by apply String.app_inj in Heq.
  - intros ->. by rewrite String.eqb_refl.
Qed.

(** X10. Against the digest of [p], [verifyPassword] accepts a candidate
    [q] exactly when [q] and [p] have the same checksum under the salt
    embedded in the digest. *)
Theorem verify_accepts_same_checksum_only (p q : string) (w : world) :
  String.length (entropy w (drawn w)) = 22 ->
  exists (h : string) (w' : world),
    hashPassword p w = (Resolved h, w')
    /\ ((verifyPassword q h w').1 = Resolved true
        <-> crypt q (String.substring 0 SALT_LENGTH h)
            = crypt p (String.substring 0 SALT_LENGTH h)).
Proof.
  intros Hlen. eexists _, _. split; [apply hashPassword_run |].
  pose proof (salt_length _ Hlen) as Hs.
  unfold verifyPassword. rewrite embedded_salt by done. by apply compare_digest.
Qed.

(** X11. The pre-save hook replaces the password by its digest, against
    which the old password verifies, keeps identity, name and email, draws
    one salt, and touches neither the collection, the journal, the console
    nor the response. *)
Theorem pre_save_contract (this : user) (w : world) :
  String.length (entropy w (drawn w)) = 22 ->
  exists (saved : user) (w' : world),
    pre_save this w = (Resolved saved, w')
    /\ _id saved = _id this /\ name saved = name this /\ email saved = email this
    /\ (hashPassword (password this) w).1 = Resolved (password saved)
    /\ verifyPassword (password this) (password saved) w' = (Resolved true, w')
    /\ users w' = users w /\ journal w' = journal w /\ console w' = console w
    /\ res w' = res w /\ drawn w' = S (drawn w).
Proof.
  intros Hlen. eexists _, _. split; [reflexivity |]. simpl.
  repeat split. by apply compare_own_digest, salt_length.
Qed.

(** X12. The hook has no guard on what the password field holds: run on
    a document it has already hashed, it hashes the digest again, and the
    original password then verifies only if it shares its checksum with the
    first digest. *)
Theorem hook_hashes_a_digest_again (this : user) (w : world) :
  String.length (entropy w (S (drawn w))) = 22 ->
  exists (once twice : user) (w1 w2 : world),
    pre_save this w = (Resolved once, w1)
    /\ pre_save once w1 = (Resolved twice, w2)
    /\ (hashPassword (password once) w1).1 = Resolved (password twice)
    /\ ((verifyPassword (password this) (password twice) w2).1 = Resolved true
        <-> crypt (password this) (String.substring 0 SALT_LENGTH (password twice))
            = crypt (password once) (String.substring 0 SALT_LENGTH (password twice))).
Proof.
  intros Hlen. pose proof (salt_length _ Hlen) as Hs.
  eexists _, _, _, _. split; [reflexivity |]. split; [reflexivity |].
  split; [reflexivity |]. cbn [password drawn set_drawn entropy].
  unfold verifyPassword. rewrite embedded_salt by done. by apply compare_digest.
Qed.


(** X13. Emails are told apart as exact strings: two requests with
    different email strings (they may differ in letter case only), neither
    held by the collection, are both answered 201 and both stored, in
    order. *)
Theorem distinct_emails_both_register
    (req1 req2 : request) (w : world) (n1 e1 p1 n2 e2 p2 : string) :
  body req1 !! "name" = Some (JStr n1) ->
  body req1 !! "email" = Some (JStr e1) ->
  body req1 !! "password" = Some (JStr p1) ->
  body req2 !! "name" = Some (JStr n2) ->
  body req2 !! "email" = Some (JStr e2) ->
  body req2 !! "password" = Some (JStr p2) ->
  n1 <> "" -> e1 <> "" -> p1 <> "" -> n2 <> "" -> e2 <> "" -> p2 <> "" ->
  e1 <> e2 ->
  e1 ∉ emails w -> e2 ∉ emails w ->
  (forall k, outage w k = None) ->
  exists (u1 u2 : user) (w1 w2 : world),
    post_register req1 w = (Resolved tt, w1)
    /\ post_register req2 w1 = (Resolved tt, w2)
    /\ status <$> res w1 = Some 201 /\ status <$> res w2 = Some 201
    /\ users w2 = users w ++ [u1; u2]
    /\ email u1 = e1 /\ email u2 = e2.
Proof.
  intros Hn1 He1 Hp1 Hn2 He2 Hp2 ? ? ? ? ? ? Hne Hnew1 Hnew2 Hup.
  unfold post_register.
  rewrite (register_new_strings req1 (set_res None w) n1 e1 p1)
    by (done || apply Hup).
  cbv zeta. eexists _, _, _, _. split; [reflexivity |].
  rewrite (register_new_strings req2 _ n2 e2 p2); try (done || apply Hup).
  - split; [reflexivity |]. simpl. rewrite <- app_assoc. by repeat split.
  - unfold emails. simpl. rewrite fmap_app. simpl.
    rewrite elem_of_app, list_elem_of_singleton. intros [? | ?]; [done | congruence].
Qed.

(** ** Sequences of requests *)

Lemma post_register_users (req : request) (w : world) :
  users (post_register req w).2 = users w
  \/ exists u : user,
       users (post_register req w).2 = users w ++ [u] /\ email u ∉ emails w.
Proof. apply (register_users req (set_res None w)). Qed.

(** X14. Uniqueness of emails holds over the life of the server: it
    survives every sequence of requests handled one after the other. *)
Theorem serve_keeps_emails_unique (reqs : list request) (w : world) :
  emails_unique w -> emails_unique (serve reqs w).
Proof.
  revert w. induction reqs as [|req reqs IH]; intros w Hw; [done |].
  simpl. apply IH. revert Hw. rewrite !emails_unique_NoDup. unfold emails.
  destruct (post_register_users req w) as [-> | (u & -> & Hu)]; [done |].
  intros Hw. by apply NoDup_emails_snoc.
Qed.

(** X15. Requests only append: after any sequence of requests the old
    collection is a prefix of the new one, with no document changed or
    removed, and at most one document has been added per request. *)
Theorem serve_only_appends (reqs : list request) (w : world) :
  users w `prefix_of` users (serve reqs w)
  /\ length (users (serve reqs w)) <= length (users w) + length reqs.
Proof.
  revert w. induction reqs as [|req reqs IH]; intros w; simpl.
  - split; [done | lia].
  - destruct (IH (post_register req w).2) as [Hpre Hlen].
    destruct (post_register_users req w) as [Hu | (u & Hu & _)];
      rewrite Hu in Hpre, Hlen.
    + split; [done | lia].
    + split; [by eapply prefix_app_l |]. rewrite length_app in Hlen. simpl in Hlen. lia.
Qed.

(** X16. No request, of whatever shape, puts anything but a digest into
    the password field of a stored document: a collection of digests stays
    one under every sequence of requests. *)
Theorem serve_keeps_digests_only (reqs : list request) (w : world) :
  digests_only w -> digests_only (serve reqs w).
Proof.
  revert w. induction reqs as [|req reqs IH]; intros w Hw; [done |].
  simpl. apply IH. unfold digests_only.
  destruct (post_register_cases req w)
    as [(_ & _ & _ & Hu & _) | [(_ & _ & _ & Hu & _) | [(_ & _ & _ & _ & Hu & _)
        | [(_ & _ & _ & u & p & _ & Hu & _ & _ & _ & _ & Hh & _) | (_ & _ & _ & _ & Hu & _)]]]];
    rewrite Hu; try done.
  intros v. rewrite elem_of_app, list_elem_of_singleton. intros [Hv | ->]; [by apply Hw |].
  by exists p, w.
Qed.

End Coverage.
(** ** The further properties on the README's request *)

(** Witness of X3. *)
Lemma response_table_jane :
  jane_created = bad_request "All fields are required."
  \/ jane_created = bad_request "Email is already registered."
  \/ jane_created = {| status := 500; json := Message "Server error" |}
  \/ exists u : user,
       jane_created
       = {| status := 201; json := Registered "User registered successfully!" u |}
       /\ last (users (@post_register mock jane w0).2) = Some u.
Proof. apply (@response_table mock jane w0 jane_created). reflexivity. Defined.

(** Witness of X6. *)
Lemma duplicate_answer_iff_registered_jane :
  res (@post_register mock jane_again w_jane).2
  = Some (bad_request "Email is already registered.")
  <-> "jane@example.com" ∈ emails w_jane.
Proof.
  apply (@duplicate_answer_iff_registered mock jane_again w_jane "jane@example.com");
    reflexivity.
Defined.

(** Witness of X7. *)
Lemma salt_drawn_on_save_only_jane :
  (status jane_created = 400 -> drawn (@post_register mock jane w0).2 = drawn w0)
  /\ (status jane_created = 201 -> drawn (@post_register mock jane w0).2 = S (drawn w0)).
Proof. apply (@salt_drawn_on_save_only mock jane w0 jane_created). reflexivity. Defined.

(** Witness of X8: the store is out of reach of [save]; the answer is 500
    and the line on the console is the error [save] was rejected with. *)
Lemma logging_follows_response_write_down :
  (status {| status := 500; json := Message "Server error" |} = 201 ->
   exists u, (@handler_save mock jane w_write_down).1 = Resolved u
             /\ json {| status := 500; json := Message "Server error" |}
                = Registered "User registered successfully!" u
             /\ console (@post_register mock jane w_write_down).2
                = console w_write_down ++ [LogUser u])
  /\ (status {| status := 500; json := Message "Server error" |} = 500 ->
      exists e, (@handler_save mock jane w_write_down).1 = Rejected e
                /\ console (@post_register mock jane w_write_down).2
                   = console w_write_down ++ [LogError e])
  /\ (status {| status := 500; json := Message "Server error" |} = 400 ->
      console (@post_register mock jane w_write_down).2 = console w_write_down).
Proof.
  apply (@logging_follows_response mock jane w_write_down
           {| status := 500; json := Message "Server error" |}).
  reflexivity.
Defined.

(** Witness of X9. *)
Lemma registered_password_verifies_jane :
  exists (u : user) (w' : world),
    @post_register mock jane w0 = (Resolved tt, w')
    /\ last (users w') = Some u
    /\ email u = "jane@example.com"
    /\ @verifyPassword mock "password123" (password u) w' = (Resolved true, w').
Proof.
  apply (@registered_password_verifies mock jane w0 "Jane Doe" "jane@example.com"
           "password123");
    solve [ reflexivity | discriminate | apply not_elem_of_nil ].
Defined.

(** Witness of X10. *)
Lemma verify_accepts_same_checksum_only_jane :
  exists (h : string) (w' : world),
    @hashPassword mock "password123" w0 = (Resolved h, w')
    /\ ((@verifyPassword mock "hunter2" h w').1 = Resolved true
        <-> @crypt mock "hunter2" (String.substring 0 SALT_LENGTH h)
            = @crypt mock "password123" (String.substring 0 SALT_LENGTH h)).
Proof.
  apply (@verify_accepts_same_checksum_only mock "password123" "hunter2" w0).
  reflexivity.
Defined.

(** Witness of X11. *)
Lemma pre_save_contract_jane :
  exists (saved : user) (w' : world),
    @pre_save mock jane_new w0 = (Resolved saved, w')
    /\ _id saved = _id jane_new /\ name saved = name jane_new
    /\ email saved = email jane_new
    /\ (@hashPassword mock (password jane_new) w0).1 = Resolved (password saved)
    /\ @verifyPassword mock (password jane_new) (password saved) w' = (Resolved true, w')
    /\ users w' = users w0 /\ journal w' = journal w0 /\ console w' = console w0
    /\ res w' = res w0 /\ drawn w' = S (drawn w0).
Proof. apply (@pre_save_contract mock jane_new w0). reflexivity. Defined.

(** Witness of X12. *)
Lemma hook_hashes_a_digest_again_jane :
  exists (once twice : user) (w1 w2 : world),
    @pre_save mock jane_new w0 = (Resolved once, w1)
    /\ @pre_save mock once w1 = (Resolved twice, w2)
    /\ (@hashPassword mock (password once) w1).1 = Resolved (password twice)
    /\ ((@verifyPassword mock (password jane_new) (password twice) w2).1 = Resolved true
        <-> @crypt mock (password jane_new)
              (String.substring 0 SALT_LENGTH (password twice))
            = @crypt mock (password once)
                (String.substring 0 SALT_LENGTH (password twice))).
Proof. apply (@hook_hashes_a_digest_again mock jane_new w0). reflexivity. Defined.

(** On the test double the second hashing locks Jane out: her password no
    longer verifies against the twice-hashed field. *)
Example rehashed_password_fails :
  ((once <- @pre_save mock jane_new ;;
    twice <- @pre_save mock once ;;
    @verifyPassword mock (password jane_new) (password twice)) w0).1
  = Resolved false.
Proof. reflexivity. Qed.

(** Witness of X13: Jane's address, then the same with a capital letter. *)
Lemma distinct_emails_both_register_jane :
  exists (u1 u2 : user) (w1 w2 : world),
    @post_register mock jane w0 = (Resolved tt, w1)
    /\ @post_register mock jane_capital w1 = (Resolved tt, w2)
    /\ status <$> res w1 = Some 201 /\ status <$> res w2 = Some 201
    /\ users w2 = users w0 ++ [u1; u2]
    /\ email u1 = "jane@example.com" /\ email u2 = "Jane@example.com".
Proof.
  apply (@distinct_emails_both_register mock jane jane_capital w0
           "Jane Doe" "jane@example.com" "password123"
           "Jane Doe" "Jane@example.com" "password123");
    solve [ reflexivity | discriminate | apply not_elem_of_nil | intros k; reflexivity ].
Defined.

(** Witness of X14. *)
Lemma serve_keeps_emails_unique_jane :
  emails_unique (@serve mock [jane; jane_again; jane_capital; jane_unnamed] w0).
Proof.
  apply (@serve_keeps_emails_unique mock [jane; jane_again; jane_capital; jane_unnamed] w0).
  apply emails_unique_NoDup. apply NoDup_nil_2.
Defined.

(** Witness of X16. *)
Lemma serve_keeps_digests_only_jane :
  @digests_only mock (@serve mock [jane; jane_again; jane_capital; jane_unnamed] w0).
Proof.
  apply (@serve_keeps_digests_only mock [jane; jane_again; jane_capital; jane_unnamed] w0).
  intros u Hu. by apply elem_of_nil in Hu.
Defined.
